(** * preprocess_inundation_rasters.py: thresholding an inundation raster

    A shallow embedding of [main] and of its nested block callback
    [mask_inundation], together with the fragments of numpy, of the Python
    runtime and of the raster library that the script goes through. *)

From Stdlib Require Import ZArith List Bool QArith Qpower Qabs.
From Stdlib Require Import Floats.SpecFloat.
From stdpp Require Import gmap strings list fin_maps.

(** ** Python exceptions and the result of a call *)

Inductive exn : Type :=
  | IndexError
  | TypeError
  | ValueError
  | IOError (path : string).

Inductive result (A : Type) : Type :=
  | Ok (a : A)
  | Raise (e : exn).
Arguments Ok {A} a.
Arguments Raise {A} e.

Definition bind {A B : Type} (r : result A) (k : A -> result B) : result B :=
  match r with
  | Ok a => k a
  | Raise e => Raise e
  end.

Notation "x <-- r ;; k" := (bind r (fun x => k))
  (at level 100, r at next level, right associativity).

(** ** numpy *)

Module numpy.

(** An ndarray: its shape and its elements in row-major (C) order. *)
Record ndarray (A : Type) : Type := mk_ndarray {
  shape : list nat;
  data : list A
}.
Arguments mk_ndarray {A} shape data.
Arguments shape {A} _.
Arguments data {A} _.

(** Number of elements a shape holds. *)
Definition prod (sh : list nat) : nat := foldr Nat.mul 1 sh.

Definition ndim {A} (a : ndarray A) : nat := length (shape a).

(** The invariant numpy maintains for every array it hands out. *)
Definition wf {A} (a : ndarray A) : Prop := length (data a) = prod (shape a).

(** Element types. [of_pyint] converts a Python int operand to the
    array's element type, [dt_ltb] is the element-wise [<]. *)
Class Dtype (A : Type) : Type := {
  of_pyint : Z -> A;
  dt_ltb : A -> A -> bool;
  dt_eqb : A -> A -> bool
}.

(** IEEE 754 binary64. *)
#[export] Instance float64 : Dtype spec_float := {
  of_pyint z := binary_normalize 53 1024 z 0 false;
  dt_ltb := SFltb;
  dt_eqb := SFeqb
}.

(** An unsigned 8-bit integer is a [Z] kept in [0, 256). *)
Definition to_uint8 (z : Z) : Z := (z mod 256)%Z.
Definition is_uint8 (z : Z) : Prop := (0 <= z < 256)%Z.

#[export] Instance uint8 : Dtype Z := {
  of_pyint z := z;
  dt_ltb := Z.ltb;
  dt_eqb := Z.eqb
}.

(** [numpy.empty(shape, dtype=numpy.uint8)]: a new array whose
    elements are whatever bytes the allocator returned, here [mem]. *)
Definition empty (mem : nat -> Z) (sh : list nat) : ndarray Z :=
  mk_ndarray sh ((fun i => to_uint8 (mem i)) <$> seq 0 (prod sh)).

(** [a[:] = v] on a uint8 array.  A zero-dimensional array cannot be
    sliced. *)
Definition setitem_slice (a : ndarray Z) (v : Z) : result (ndarray Z) :=
  match shape a with
  | [] => Raise IndexError
  | _ :: _ => Ok (mk_ndarray (shape a) ((fun _ => to_uint8 v) <$> data a))
  end.

(** [a > v] for a Python int [v]: a bool array of the shape of [a]. *)
Definition greater {A} `{Dtype A} (a : ndarray A) (v : Z) : ndarray bool :=
  mk_ndarray (shape a) ((fun x => dt_ltb (of_pyint v) x) <$> data a).

(** [a[mask] = v] on a uint8 array with a bool array as index: the
    mask must have the shape of [a]. *)
Definition setitem_mask (a : ndarray Z) (mask : ndarray bool) (v : Z)
  : result (ndarray Z) :=
  if decide (shape mask = shape a)
  then Ok (mk_ndarray (shape a)
             (zip_with (fun (b : bool) o => if b then to_uint8 v else o)
                (data mask) (data a)))
  else Raise IndexError.

(** [numpy.array(rows)] for a list of equally long rows, and
    [a.tolist()] for a two-dimensional array. *)
Definition array2 {A} (ncols : nat) (rows : list (list A)) : ndarray A :=
  mk_ndarray [length rows; ncols] (concat rows).

Fixpoint chunks {A} (n : nat) (k : nat) (l : list A) : list (list A) :=
  match n with
  | O => []
  | S n' => take k l :: chunks n' k (drop k l)
  end.

Definition tolist2 {A} (a : ndarray A) : option (list (list A)) :=
  match shape a with
  | [r; c] => Some (chunks r c (data a))
  | _ => None
  end.

(** [a[r, c]] for a two-dimensional array. *)
Definition getitem2 {A} (a : ndarray A) (r c : nat) : option A :=
  match shape a with
  | [nr; nc] =>
      if decide (r < nr /\ c < nc) then data a !! (r * nc + c) else None
  | _ => None
  end.

End numpy.

Import numpy.

(** ** The block callback *)

(** [mask_inundation(depth_under_water)], lines 30-46.  [mem] is the
    content of the memory that [numpy.empty] returns. *)
Definition mask_inundation {A} `{Dtype A}
    (mem : nat -> Z) (depth_under_water : ndarray A) : result (ndarray Z) :=
  let out_matrix := numpy.empty mem (shape depth_under_water) in
  out_matrix <-- setitem_slice out_matrix 0 ;;
  out_matrix <-- setitem_mask out_matrix (greater depth_under_water 0) 1 ;;
  Ok out_matrix.

(** The scalar rule the callback applies at each position. *)
Definition classify {A} `{Dtype A} (x : A) : Z :=
  if dt_ltb (of_pyint 0) x then 1%Z else 0%Z.

(** ** Floating-point values

    The value of a finite float as a rational number, and the float
    literals used below, written as binary64 mantissa and exponent. *)

Definition SF2Q (x : spec_float) : option Q :=
  match x with
  | S754_zero _ => Some 0%Q
  | S754_finite s m e =>
      Some ((if s then -1 else 1) * inject_Z (Zpos m) * (2 ^ e))%Q
  | S754_infinity _ | S754_nan => None
  end.

(** [x > 0] as a statement about the value [x] denotes. *)
Definition float_positive (x : spec_float) : Prop :=
  x = S754_infinity false \/ exists q, SF2Q x = Some q /\ (0 < q)%Q.

(** [x <= 0]: zero of either sign, a negative finite value or minus
    infinity. *)
Definition float_nonpositive (x : spec_float) : Prop :=
  x = S754_infinity true \/ exists q, SF2Q x = Some q /\ (q <= 0)%Q.

Definition float_negative (x : spec_float) : Prop :=
  x = S754_infinity true \/ exists q, SF2Q x = Some q /\ (q < 0)%Q.

(** [x] is a binary64 number and its value is [q]. *)
Definition f64_denotes (x : spec_float) (q : Q) : Prop :=
  valid_binary 53 1024 x = true /\ exists v, SF2Q x = Some v /\ (v == q)%Q.

(** [x] is a binary64 number within [2 ^ e] of [q]. *)
Definition f64_within (x : spec_float) (q : Q) (e : Z) : Prop :=
  valid_binary 53 1024 x = true /\
  exists v, SF2Q x = Some v /\ (Qabs (v - q) <= 2 ^ e)%Q.

Definition f64_2_5 : spec_float := S754_finite false 5629499534213120 (-51).
Definition f64_m1_0 : spec_float := S754_finite true 4503599627370496 (-52).
Definition f64_0_0 : spec_float := S754_zero false.
Definition f64_0_3 : spec_float := S754_finite false 5404319552844595 (-54).
(** The most negative finite binary32 value, a common nodata sentinel. *)
Definition f32_lowest : spec_float := S754_finite true 16777215 104.

(** ** GDAL datasets and the file system *)

Module gdal.

(** Modelled from the spec: the pixel type of a target raster; the
    script asks for bytes only. *)
Inductive datatype : Type := GDT_Byte.

(** Modelled from the spec: a single-band raster with its
    georeferencing, internal tiling, nodata value and the band as a list
    of scanlines. *)
Record raster (A : Type) : Type := mk_raster {
  xsize : nat;
  ysize : nat;
  blockxsize : nat;
  blockysize : nat;
  geotransform : list spec_float;
  projection : string;
  nodata : option A;
  pixels : list (list A)
}.
Arguments mk_raster {A} _ _ _ _ _ _ _ _.
Arguments xsize {A} _.
Arguments ysize {A} _.
Arguments blockxsize {A} _.
Arguments blockysize {A} _.
Arguments geotransform {A} _.
Arguments projection {A} _.
Arguments nodata {A} _.
Arguments pixels {A} _.

(** The invariant of a raster on disk: [ysize] scanlines of [xsize]
    pixels each, and blocks that are not empty. *)
Definition wf_raster {A} (r : raster A) : Prop :=
  length (pixels r) = ysize r /\
  Forall (fun row => length row = xsize r) (pixels r) /\
  0 < blockxsize r /\ 0 < blockysize r.

(** Modelled from the spec: a raster of floating-point depths, or a
    byte raster such as the script writes. *)
Inductive dataset : Type :=
  | FloatDataset (r : raster spec_float)
  | ByteDataset (r : raster Z).

Definition wf_dataset (d : dataset) : Prop :=
  match d with
  | FloatDataset r => wf_raster r
  | ByteDataset r => wf_raster r
  end.

(** Modelled from the spec: a path holds a raster or something that
    is not one; [can_write] tells where a file may be created. *)
Inductive file : Type :=
  | RasterFile (d : dataset)
  | OtherFile.

Record filesystem : Type := mk_filesystem {
  files : gmap string file;
  can_write : string -> bool
}.

Definition set_pixels {A} (r : raster A) (px : list (list A)) : raster A :=
  mk_raster (xsize r) (ysize r) (blockxsize r) (blockysize r)
    (geotransform r) (projection r) (nodata r) px.

Definition store (w : filesystem) (path : string) (f : file) : filesystem :=
  mk_filesystem (<[path := f]> (files w)) (can_write w).

End gdal.

Import gdal.

(** ** pygeoprocessing *)

Module pygeoprocessing.

(** Modelled from the spec: what it leaves to the raster library, that
    is whether source pixels
    equal to the source nodata value are replaced by the target nodata
    value, and what a newly created band holds before it is written. *)
Record library : Type := mk_library {
  substitutes_nodata : bool;
  fresh : nat -> nat -> Z
}.

(** Modelled from the spec: a rectangular sub-tile of a raster. *)
Record block_offset : Type := mk_offset {
  xoff : nat;
  yoff : nat;
  win_xsize : nat;
  win_ysize : nat
}.

Definition ceil_div (a b : nat) : nat := (a + b - 1) / b.

(** Modelled from the spec: the sequence of blocks of a raster, which
    the spec describes as sequential, deterministic and determined by
    the internal tiling of the raster. *)
Definition iterblocks {A} (r : raster A) : list block_offset :=
  yi ← seq 0 (ceil_div (ysize r) (blockysize r));
  xi ← seq 0 (ceil_div (xsize r) (blockxsize r));
  [mk_offset (xi * blockxsize r) (yi * blockysize r)
     (Nat.min (blockxsize r) (xsize r - xi * blockxsize r))
     (Nat.min (blockysize r) (ysize r - yi * blockysize r))].

(** Modelled from the spec: opening a path for reading fails with an
    I/O error when the path does not hold a raster. *)
Definition open_raster (w : filesystem) (path : string) : result dataset :=
  match files w !! path with
  | Some (RasterFile d) => Ok d
  | _ => Raise (IOError path)
  end.

(** Whether a path can be opened as a raster. *)
Definition is_raster (w : filesystem) (path : string) : bool :=
  match files w !! path with
  | Some (RasterFile _) => true
  | _ => false
  end.

(** Modelled from the spec: the rows of a band inside a window. *)
Definition block_rows {A} (r : raster A) (o : block_offset) : list (list A) :=
  (fun row => take (win_xsize o) (drop (xoff o) row))
  <$> take (win_ysize o) (drop (yoff o) (pixels r)).

(** Modelled from the spec: the block of a band at an offset, as a
    two-dimensional array. *)
Definition read_block {A} (r : raster A) (o : block_offset) : ndarray A :=
  mk_ndarray [win_ysize o; win_xsize o] (concat (block_rows r o)).

(** [old] with the segment that starts at [off] replaced by [new]. *)
Definition splice {X} (off : nat) (new old : list X) : list X :=
  take off old ++ new ++ drop (off + length new) old.

(** Modelled from the spec: writing a two-dimensional array of bytes
    into a band at an offset; the array has to fit the band. *)
Definition write_block (r : raster Z) (o : block_offset) (a : ndarray Z)
  : result (raster Z) :=
  match shape a with
  | [h; w] =>
      if decide (yoff o + h <= ysize r /\ xoff o + w <= xsize r)
      then Ok (set_pixels r
                 (splice (yoff o)
                    (zip_with
                       (fun old new => splice (xoff o) (to_uint8 <$> new) old)
                       (take h (drop (yoff o) (pixels r)))
                       (chunks h w (data a)))
                    (pixels r)))
      else Raise ValueError
  | _ => Raise ValueError
  end.

(** Modelled from the spec: a new target raster of the extent,
    georeferencing and tiling of the source, with byte pixels and the
    given nodata value. *)
Definition create_target {A} (lib : library) (src : raster A)
    (datatype_target : datatype) (nodata_target : Z) : raster Z :=
  match datatype_target with
  | GDT_Byte =>
      mk_raster (xsize src) (ysize src) (blockxsize src) (blockysize src)
        (geotransform src) (projection src) (Some (to_uint8 nodata_target))
        ((fun r => (fun c => to_uint8 (fresh lib r c)) <$> seq 0 (xsize src))
         <$> seq 0 (ysize src))
  end.

(** Modelled from the spec: [x] is the nodata value of the raster. *)
Definition is_nodata {A} `{Dtype A} (r : raster A) (x : A) : bool :=
  match nodata r with
  | Some nd => dt_eqb x nd
  | None => false
  end.

(** Modelled from the spec: with nodata substitution, a position whose
    source value is the source nodata value receives the target nodata
    value instead of the result of the callback. *)
Definition substitute {A} `{Dtype A} (lib : library) (src : raster A)
    (nodata_target : Z) (blk : ndarray A) (res : ndarray Z) : ndarray Z :=
  if substitutes_nodata lib
  then mk_ndarray (shape res)
         (zip_with (fun x v => if is_nodata src x then nodata_target else v)
            (data blk) (data res))
  else res.

(** Modelled from the spec: the type of a block callback; it works on
    blocks of any element type and allocates from the memory it is
    given. *)
Definition callback : Type :=
  forall A, Dtype A -> (nat -> Z) -> ndarray A -> result (ndarray Z).

(** Modelled from the spec: the loop over the blocks.  The [k]-th call
    of the callback allocates from [heap k]; an exception of the
    callback or of the write leaves the loop. *)
Fixpoint calculate_blocks {A} `{Dtype A} (lib : library)
    (heap : nat -> nat -> Z) (local_op : callback) (src : raster A)
    (nodata_target : Z) (offsets : list block_offset) (k : nat)
    (target : raster Z) : result unit * raster Z :=
  match offsets with
  | [] => (Ok tt, target)
  | o :: offsets' =>
      let blk := read_block src o in
      match local_op A _ (heap k) blk with
      | Raise e => (Raise e, target)
      | Ok res =>
          match write_block target o (substitute lib src nodata_target blk res) with
          | Raise e => (Raise e, target)
          | Ok target' =>
              calculate_blocks lib heap local_op src nodata_target
                offsets' (S k) target'
          end
      end
  end.

(** Modelled from the spec: the pass over all blocks of a source, into
    a newly created target. *)
Definition calculate {A} `{Dtype A} (lib : library)
    (heap : nat -> nat -> Z) (local_op : callback) (src : raster A)
    (datatype_target : datatype) (nodata_target : Z)
  : result unit * raster Z :=
  calculate_blocks lib heap local_op src nodata_target (iterblocks src) 0
    (create_target lib src datatype_target nodata_target).

(** The pixel of a band at (row, column). *)
Definition pixel {A} (px : list (list A)) (r c : nat) : option A :=
  px !! r ≫= (.!! c).

Definition in_window (o : block_offset) (r c : nat) : Prop :=
  (yoff o <= r < yoff o + win_ysize o) /\ (xoff o <= c < xoff o + win_xsize o).

Definition in_bounds {A} (src : raster A) (o : block_offset) : Prop :=
  yoff o + win_ysize o <= ysize src /\ xoff o + win_xsize o <= xsize src.

(** A target of the extent of the source. *)
Definition same_extent {A} (src : raster A) (t : raster Z) : Prop :=
  xsize t = xsize src /\ ysize t = ysize src /\
  length (pixels t) = ysize src /\
  Forall (fun row => length row = xsize src) (pixels t).

(** The byte a source pixel becomes when the callback applies [rule]
    at each position. *)
Definition target_pixel {A} `{Dtype A} (lib : library) (src : raster A)
    (nodata_target : Z) (rule : A -> Z) (x : A) : Z :=
  to_uint8 (if substitutes_nodata lib && is_nodata src x
            then nodata_target else rule x).

(** Modelled from the spec: [raster_calculator] opens the source for
    reading, creates the target, applies the callback to every block
    and writes each result at the place of its block.  It fails with
    an I/O error when the source is unreadable or the target is not
    writable; the source is band 1 of a single-band raster. *)
Definition raster_calculator (lib : library) (heap : nat -> nat -> Z)
    (base_raster_path_band : string * nat) (local_op : callback)
    (target_raster_path : string) (datatype_target : datatype)
    (nodata_target : Z) (w : filesystem) : result unit * filesystem :=
  let '(path, band) := base_raster_path_band in
  match open_raster w path with
  | Raise e => (Raise e, w)
  | Ok d =>
      if negb (band =? 1) then (Raise (IOError path), w)
      else if negb (can_write w target_raster_path)
      then (Raise (IOError target_raster_path), w)
      else
        let '(r, t) :=
          match d with
          | FloatDataset src =>
              calculate lib heap local_op src datatype_target nodata_target
          | ByteDataset src =>
              calculate lib heap local_op src datatype_target nodata_target
          end in
        (r, store w target_raster_path (RasterFile (ByteDataset t)))
  end.

End pygeoprocessing.

Import pygeoprocessing.

(** ** The script *)

(** [main(inundation_raster, target_raster)], lines 17-50: one call of
    the library with the callback; the function falls off its end and
    so returns [None], here [tt]. *)
Definition main (lib : library) (heap : nat -> nat -> Z)
    (inundation_raster target_raster : string) (w : filesystem)
  : result unit * filesystem :=
  let '(r, w') :=
    raster_calculator lib heap (inundation_raster, 1) (@mask_inundation)
      target_raster GDT_Byte 255 w in
  (_ <-- r ;; Ok tt, w').

(** Lines 53-54: [main] is called with the elements of [sys.argv[1:]]
    as its arguments.  A call with the wrong number of arguments is a
    [TypeError]. *)
Definition script (lib : library) (heap : nat -> nat -> Z)
    (argv : list string) (w : filesystem) : result unit * filesystem :=
  match drop 1 argv with
  | [inundation_raster; target_raster] =>
      main lib heap inundation_raster target_raster w
  | _ => (Raise TypeError, w)
  end.

(** The raster the script is meant to leave at the target path: the
    source with [classify] applied to every pixel, as bytes with nodata
    value 255. *)
Definition threshold_raster {A} `{Dtype A} (lib : library) (src : raster A)
  : raster Z :=
  mk_raster (xsize src) (ysize src) (blockxsize src) (blockysize src)
    (geotransform src) (projection src) (Some 255%Z)
    ((fun row : list A => target_pixel lib src 255 classify <$> row)
     <$> pixels src).

Definition threshold_dataset (lib : library) (d : dataset) : raster Z :=
  match d with
  | FloatDataset src => threshold_raster lib src
  | ByteDataset src => threshold_raster lib src
  end.

(** The exit status of the interpreter: 0 when the script ran to its
    end, 1 when an exception reached the top level. *)
Definition exit_status {A} (r : result A) : Z :=
  match r with
  | Ok _ => 0
  | Raise _ => 1
  end.

(** ** Vocabulary for stating how the callback composes *)

(** [numpy.concatenate((a, b), axis=0)]: the arrays must have at least
    one axis and agree on all axes but the first. *)
Definition concatenate {A} (a b : ndarray A) : result (ndarray A) :=
  match shape a, shape b with
  | n1 :: rest1, n2 :: rest2 =>
      if decide (rest1 = rest2)
      then Ok (mk_ndarray (n1 + n2 :: rest1) (data a ++ data b))
      else Raise ValueError
  | _, _ => Raise ValueError
  end.

(** [numpy.count_nonzero(a)] on an array of integers. *)
Definition count_nonzero (a : ndarray Z) : nat :=
  length (filter (fun v => v <> 0%Z) (data a)).

(** The number of elements of a float array that compare greater than
    zero. *)
Definition count_positive (a : ndarray spec_float) : nat :=
  length (filter (fun x => SFltb (S754_zero false) x = true) (data a)).

(** ** Sample inputs *)

(** Allocator contents that are neither 0 nor 1. *)
Definition garbage : nat -> Z := fun i => (Z.of_nat i * 37 + 171)%Z.
Definition garbage' : nat -> Z := fun i => (Z.of_nat i + 2)%Z.

(** The block [[2.5, -1.0], [0.0, 0.3]]. *)
Definition sample_block : ndarray spec_float :=
  array2 2 [[f64_2_5; f64_m1_0]; [f64_0_0; f64_0_3]].

(** A row holding a nodata sentinel, a depth, a NaN and both infinities. *)
Definition special_block : ndarray spec_float :=
  array2 5 [[f32_lowest; f64_2_5; S754_nan; S754_infinity true; S754_infinity false]].

(** A block that agrees with [sample_block] at its corners only. *)
Definition other_block : ndarray spec_float :=
  array2 2 [[f64_2_5; f64_0_3]; [f64_m1_0; f64_0_3]].

(** A block of no rows. *)
Definition zero_size_block : ndarray spec_float := mk_ndarray [0; 4] [].

(** A 3 x 5 raster tiled in 2 x 2 blocks, with the binary32 minimum as
    its nodata value. *)
Definition sample_raster : raster spec_float :=
  mk_raster 5 3 2 2 [] "EPSG:26910" (Some f32_lowest)
    [[f64_2_5; f64_m1_0; f64_0_0; f64_0_3; f32_lowest];
     [f64_m1_0; f32_lowest; f64_0_3; f64_0_3; S754_nan];
     [f64_2_5; f64_2_5; f64_0_0; f64_0_3; S754_infinity false]].

Definition sample_fs : filesystem :=
  mk_filesystem
    {[ "depth.tif" := RasterFile (FloatDataset sample_raster);
       "notes.txt" := OtherFile ]}
    (fun path => negb (String.eqb path "/readonly/out.tif")).

(** A library that hands the raw pixels to the callback, and one that
    substitutes nodata. *)
Definition raw_library : library := mk_library false (fun r c => 7%Z).
Definition masking_library : library := mk_library true (fun r c => 7%Z).

Definition sample_heap : nat -> nat -> Z := fun k i => garbage (k + i).
Definition sample_heap' : nat -> nat -> Z := fun k i => garbage' (k * i).


(** [sample_raster] stored in strips of one scanline. *)
Definition striped_raster : raster spec_float :=
  mk_raster 5 3 5 1 [] "EPSG:26910" (Some f32_lowest) (pixels sample_raster).

(** * Properties *)

(** ** The callback, element by element *)

Lemma zip_with_mask_const {A : Type} (p : A -> bool) (v c : Z) :
  forall (l : list A) (m : list Z),
    zip_with (fun (b : bool) o => if b then v else o) (p <$> l) ((fun _ => c) <$> m)
    = take (length m) ((fun x => if p x then v else c) <$> l).
Proof.
  induction l as [|x l IH]; intros [|y m]; simpl; auto.
  f_equal. apply IH.
Qed.

(** What [mask_inundation] returns on any array whatsoever: the memory
    that [numpy.empty] handed out does not show in the result. *)
Lemma mask_inundation_eq {A} `{Dtype A} (mem : nat -> Z) (d : ndarray A) :
  mask_inundation mem d =
  match shape d with
  | [] => Raise IndexError
  | _ :: _ => Ok (mk_ndarray (shape d) (take (prod (shape d)) (classify <$> data d)))
  end.
Proof.
  unfold mask_inundation, setitem_slice. simpl.
  destruct (shape d) as [|n sh] eqn:Hsh; [reflexivity|].
  simpl. unfold setitem_mask. simpl. rewrite Hsh.
  destruct (decide (n :: sh = n :: sh)) as [_|Hne]; [|congruence].
  rewrite zip_with_mask_const. simpl.
  rewrite !length_fmap, length_seq. reflexivity.
Qed.

Lemma mask_inundation_spec {A} `{Dtype A} (mem : nat -> Z) (d : ndarray A) :
  wf d -> 0 < ndim d ->
  mask_inundation mem d = Ok (mk_ndarray (shape d) (classify <$> data d)).
Proof.
  intros Hwf Hdim. rewrite mask_inundation_eq.
  unfold ndim in Hdim. unfold wf in Hwf.
  destruct (shape d) as [|n sh]; [simpl in Hdim; lia|].
  rewrite <- Hwf, <- (length_fmap classify), firstn_all. reflexivity.
Qed.

Lemma classify_cases {A} `{Dtype A} (x : A) : classify x = 0%Z \/ classify x = 1%Z.
Proof. unfold classify. destruct (dt_ltb (of_pyint 0) x); auto. Qed.

Lemma getitem2_flat {A} (a : ndarray A) (r c : nat) (x : A) :
  getitem2 a r c = Some x ->
  exists nr nc, shape a = [nr; nc] /\ data a !! (r * nc + c) = Some x.
Proof.
  unfold getitem2. destruct (shape a) as [|nr [|nc [|? ?]]]; try discriminate.
  destruct (decide (r < nr /\ c < nc)); [|discriminate].
  intros Hx. eauto.
Qed.

Lemma getitem2_fmap {A B} (f : A -> B) (a : ndarray A) (r c : nat) :
  getitem2 (mk_ndarray (shape a) (f <$> data a)) r c = f <$> getitem2 a r c.
Proof.
  unfold getitem2. simpl. destruct (shape a) as [|nr [|nc [|? ?]]]; try reflexivity.
  destruct (decide (r < nr /\ c < nc)); [|reflexivity].
  apply list_lookup_fmap.
Qed.

(** ** The comparison with zero on floats *)

Lemma float64_zero : of_pyint (A := spec_float) 0 = S754_zero false.
Proof. reflexivity. Qed.

Lemma finite_value_sign (s : bool) (m : positive) (e : Z) (q : Q) :
  SF2Q (S754_finite s m e) = Some q ->
  if s then (q < 0)%Q else (0 < q)%Q.
Proof.
  simpl. intros [= <-].
  assert (Hp : (0 < 2 ^ e)%Q) by (apply Qpower_0_lt; reflexivity).
  assert (Hm : (0 < inject_Z (Z.pos m))%Q) by reflexivity.
  pose proof (Qmult_lt_0_compat _ _ Hm Hp) as Hmp.
  destruct s.
  - assert (E : (-1 * inject_Z (Z.pos m) * 2 ^ e == - (inject_Z (Z.pos m) * 2 ^ e))%Q)
      by ring.
    rewrite E. apply (Qopp_lt_compat 0) in Hmp. exact Hmp.
  - assert (E : (1 * inject_Z (Z.pos m) * 2 ^ e == inject_Z (Z.pos m) * 2 ^ e)%Q)
      by ring.
    rewrite E. exact Hmp.
Qed.

(** The comparison the callback performs is [x > 0] on the values. *)
Lemma gt_zero_positive (x : spec_float) :
  dt_ltb (of_pyint 0) x = true <-> float_positive x.
Proof.
  rewrite float64_zero. unfold float_positive. split.
  - destruct x as [s|s| |s m e]; simpl; try discriminate.
    + destruct s; [discriminate|]. auto.
    + destruct s; [discriminate|]. intros _. right. eexists. split; [reflexivity|].
      apply (finite_value_sign false m e). reflexivity.
  - intros [->|[q [Hq Hpos]]]; [reflexivity|].
    destruct x as [s|s| |s m e]; simpl in Hq; try discriminate.
    + injection Hq as <-. exfalso. revert Hpos. apply Qlt_irrefl.
    + pose proof (finite_value_sign s m e q Hq) as Hs. destruct s; [|reflexivity].
      exfalso. apply (Qlt_irrefl 0). eapply Qlt_trans; eassumption.
Qed.

Lemma float_nonpositive_not_positive (x : spec_float) :
  float_nonpositive x -> ~ float_positive x.
Proof.
  intros [->|[q [Hq Hle]]] [Hinf|[q' [Hq' Hpos]]].
  - discriminate.
  - discriminate.
  - subst x. discriminate.
  - rewrite Hq in Hq'. injection Hq' as <-.
    apply (Qlt_irrefl 0). eapply Qlt_le_trans; eassumption.
Qed.

Lemma float_negative_nonpositive (x : spec_float) :
  float_negative x -> float_nonpositive x.
Proof.
  intros [->|[q [Hq Hlt]]]; [left; reflexivity|].
  right. exists q. split; [assumption|]. apply Qlt_le_weak. assumption.
Qed.

Lemma classify_positive (x : spec_float) : float_positive x -> classify x = 1%Z.
Proof.
  intros Hx. apply gt_zero_positive in Hx. unfold classify. rewrite Hx. reflexivity.
Qed.

Lemma classify_not_positive (x : spec_float) : ~ float_positive x -> classify x = 0%Z.
Proof.
  intros Hx. unfold classify.
  destruct (dt_ltb (of_pyint 0) x) eqn:E; [|reflexivity].
  exfalso. apply Hx. apply gt_zero_positive. exact E.
Qed.

(** Every float is positive, non-positive or not a number. *)
Lemma float_cases (x : spec_float) :
  float_positive x \/ float_nonpositive x \/ x = S754_nan.
Proof.
  destruct x as [s|s| |s m e].
  - right. left. right. exists 0%Q. split; [reflexivity|]. apply Qle_refl.
  - destruct s; [right; left; left; reflexivity | left; left; reflexivity].
  - right. right. reflexivity.
  - pose proof (finite_value_sign s m e _ eq_refl) as Hs. destruct s.
    + right. left. right. eexists. split; [reflexivity|]. apply Qlt_le_weak. exact Hs.
    + left. right. eexists. split; [reflexivity|]. exact Hs.
Qed.

(** ** The callback and the script on the sample inputs *)

Example mask_inundation_special :
  mask_inundation garbage special_block = Ok (array2 5 [[0; 1; 0; 0; 1]]%Z).
Proof. reflexivity. Qed.

Example mask_inundation_zero_dimensional :
  mask_inundation garbage (mk_ndarray [] [f64_2_5]) = Raise IndexError.
Proof. reflexivity. Qed.

Example mask_inundation_negative_zero :
  mask_inundation garbage (array2 1 [[S754_zero true]]) = Ok (array2 1 [[0%Z]]).
Proof. reflexivity. Qed.

Example sample_blocks :
  iterblocks sample_raster
  = [mk_offset 0 0 2 2; mk_offset 2 0 2 2; mk_offset 4 0 1 2;
     mk_offset 0 2 2 1; mk_offset 2 2 2 1; mk_offset 4 2 1 1].
Proof. reflexivity. Qed.

Example sample_run_raw :
  pixels (calculate raw_library sample_heap (@mask_inundation)
            sample_raster GDT_Byte 255).2
  = [[1; 0; 0; 1; 0]; [0; 0; 1; 1; 0]; [1; 1; 0; 1; 1]]%Z.
Proof. vm_compute. reflexivity. Qed.

Example sample_run_masking :
  pixels (calculate masking_library sample_heap (@mask_inundation)
            sample_raster GDT_Byte 255).2
  = [[1; 0; 0; 1; 255]; [0; 255; 1; 1; 0]; [1; 1; 0; 1; 1]]%Z.
Proof. vm_compute. reflexivity. Qed.

Example script_wrong_arity :
  (script raw_library sample_heap ["preprocess_inundation_rasters.py"; "depth.tif"]
     sample_fs).1 = Raise TypeError.
Proof. reflexivity. Qed.

(** ** The claims about the callback *)

(** C1: on every block of floats [mask_inundation] returns an array that
    holds 1 at each position whose input is strictly greater than 0 and
    0 at every other position, in particular where the input is zero or
    negative; the same holds when positions are given as (row, column). *)
Theorem mask_inundation_threshold (mem : nat -> Z) (d : ndarray spec_float) :
  wf d -> 0 < ndim d ->
  exists out, mask_inundation mem d = Ok out /\
    (forall i x, data d !! i = Some x ->
       (float_positive x -> data out !! i = Some 1%Z) /\
       (~ float_positive x -> data out !! i = Some 0%Z) /\
       (float_nonpositive x -> data out !! i = Some 0%Z)) /\
    (forall r c x, getitem2 d r c = Some x ->
       (float_positive x -> getitem2 out r c = Some 1%Z) /\
       (~ float_positive x -> getitem2 out r c = Some 0%Z) /\
       (float_nonpositive x -> getitem2 out r c = Some 0%Z)).
Proof.
  intros Hwf Hdim. eexists. split; [apply mask_inundation_spec; assumption|].
  split.
  - intros i x Hx. simpl. rewrite list_lookup_fmap, Hx. simpl.
    repeat split; intros Hp.
    + rewrite classify_positive; auto.
    + rewrite classify_not_positive; auto.
    + rewrite classify_not_positive; auto using float_nonpositive_not_positive.
  - intros r c x Hx. rewrite getitem2_fmap, Hx. simpl.
    repeat split; intros Hp.
    + rewrite classify_positive; auto.
    + rewrite classify_not_positive; auto.
    + rewrite classify_not_positive; auto using float_nonpositive_not_positive.
Qed.

Lemma mask_inundation_threshold_witness :
  wf sample_block /\ 0 < ndim sample_block /\
  exists out, mask_inundation garbage sample_block = Ok out /\
    (forall i x, data sample_block !! i = Some x ->
       (float_positive x -> data out !! i = Some 1%Z) /\
       (~ float_positive x -> data out !! i = Some 0%Z) /\
       (float_nonpositive x -> data out !! i = Some 0%Z)) /\
    (forall r c x, getitem2 sample_block r c = Some x ->
       (float_positive x -> getitem2 out r c = Some 1%Z) /\
       (~ float_positive x -> getitem2 out r c = Some 0%Z) /\
       (float_nonpositive x -> getitem2 out r c = Some 0%Z)).
Proof.
  split; [reflexivity|]. split; [vm_compute; lia|].
  apply (mask_inundation_threshold garbage sample_block); [reflexivity | vm_compute; lia].
Defined.

(** C2: [mask_inundation] has no nodata handling of its own: a position
    that holds a negative value, such as a large negative nodata
    sentinel, comes out as 0 and not as the nodata marker 255. *)
Theorem mask_inundation_negative_is_zero (mem : nat -> Z) (d : ndarray spec_float)
    (i : nat) (x : spec_float) :
  wf d -> 0 < ndim d ->
  data d !! i = Some x -> float_negative x ->
  exists out, mask_inundation mem d = Ok out /\
    data out !! i = Some 0%Z /\ data out !! i <> Some 255%Z.
Proof.
  intros Hwf Hdim Hx Hneg. eexists. split; [apply mask_inundation_spec; assumption|].
  simpl. rewrite list_lookup_fmap, Hx. simpl.
  rewrite classify_not_positive
    by auto using float_nonpositive_not_positive, float_negative_nonpositive.
  split; [reflexivity | discriminate].
Qed.

Lemma f32_lowest_negative : float_negative f32_lowest.
Proof.
  right. eexists. split; [reflexivity|].
  apply (finite_value_sign true 16777215 104). reflexivity.
Defined.

Lemma mask_inundation_negative_is_zero_witness :
  exists out, mask_inundation garbage special_block = Ok out /\
    data out !! 0 = Some 0%Z /\ data out !! 0 <> Some 255%Z.
Proof.
  apply (mask_inundation_negative_is_zero garbage special_block 0 f32_lowest).
  - reflexivity.
  - vm_compute; lia.
  - reflexivity.
  - exact f32_lowest_negative.
Defined.

(** C10: a position that holds NaN comes out as 0: the comparison of
    NaN with 0 is false, nothing is raised and 255 is not produced. *)
Theorem mask_inundation_nan (mem : nat -> Z) (d : ndarray spec_float) (i : nat) :
  wf d -> 0 < ndim d ->
  data d !! i = Some S754_nan ->
  dt_ltb (of_pyint 0) S754_nan = false /\
  exists out, mask_inundation mem d = Ok out /\
    data out !! i = Some 0%Z /\ data out !! i <> Some 255%Z.
Proof.
  intros Hwf Hdim Hx. split; [reflexivity|].
  eexists. split; [apply mask_inundation_spec; assumption|].
  simpl. rewrite list_lookup_fmap, Hx. simpl.
  split; [reflexivity | discriminate].
Qed.

Lemma mask_inundation_nan_witness :
  dt_ltb (of_pyint 0) S754_nan = false /\
  exists out, mask_inundation garbage special_block = Ok out /\
    data out !! 2 = Some 0%Z /\ data out !! 2 <> Some 255%Z.
Proof.
  apply (mask_inundation_nan garbage special_block 2);
    [reflexivity | vm_compute; lia | reflexivity].
Defined.

(** C4: the block [[2.5, -1.0], [0.0, 0.3]] is mapped to
    [[1, 0], [0, 1]], whatever the allocator returned; the four inputs
    are the binary64 numbers 2.5, -1, 0 and the one nearest to 0.3. *)
Theorem mask_inundation_sample (mem : nat -> Z) :
  mask_inundation mem sample_block = Ok (array2 2 [[1; 0]; [0; 1]]%Z) /\
  tolist2 sample_block
    = Some [[f64_2_5; f64_m1_0]; [f64_0_0; f64_0_3]] /\
  tolist2 (array2 2 [[1; 0]; [0; 1]]%Z) = Some [[1; 0]; [0; 1]]%Z /\
  f64_denotes f64_2_5 (5 # 2) /\
  f64_denotes f64_m1_0 (-1 # 1) /\
  f64_denotes f64_0_0 0 /\
  f64_within f64_0_3 (3 # 10) (-55).
Proof.
  split.
  { rewrite mask_inundation_eq. reflexivity. }
  do 2 (split; [reflexivity|]).
  unfold f64_denotes, f64_within.
  repeat split; try reflexivity; eexists; (split; [reflexivity|]);
    vm_compute; try reflexivity; discriminate.
Qed.

(** C5: the array [mask_inundation] returns has the shape of its input,
    whatever that shape is, a shape without elements included, and its
    elements are unsigned 8-bit integers. *)
Theorem mask_inundation_shape {A} `{Dtype A} (mem : nat -> Z) (d : ndarray A) :
  wf d -> 0 < ndim d ->
  exists out, mask_inundation mem d = Ok out /\
    shape out = shape d /\
    length (data out) = prod (shape d) /\
    Forall is_uint8 (data out).
Proof.
  intros Hwf Hdim. eexists. split; [apply mask_inundation_spec; assumption|].
  simpl. split; [reflexivity|]. split.
  - rewrite length_fmap. exact Hwf.
  - apply Forall_fmap, Forall_forall. intros x _. unfold compose, is_uint8.
    destruct (classify_cases x) as [-> | ->]; lia.
Qed.

Lemma mask_inundation_shape_witness :
  exists out, mask_inundation garbage zero_size_block = Ok out /\
    shape out = [0; 4] /\
    length (data out) = 0 /\
    Forall is_uint8 (data out).
Proof.
  apply (mask_inundation_shape garbage zero_size_block);
    [reflexivity | vm_compute; lia].
Defined.

(** C7: the output at a position depends on the input at that position
    alone: two blocks of one shape that agree at a position, flat or
    (row, column), give outputs that agree there, and each output is the
    scalar rule [classify] mapped over the input. *)
Theorem mask_inundation_pointwise {A} `{Dtype A} (mem1 mem2 : nat -> Z)
    (d1 d2 : ndarray A) (i : nat) :
  wf d1 -> wf d2 -> 0 < ndim d1 ->
  shape d1 = shape d2 ->
  data d1 !! i = data d2 !! i ->
  exists out1 out2,
    mask_inundation mem1 d1 = Ok out1 /\
    mask_inundation mem2 d2 = Ok out2 /\
    data out1 !! i = data out2 !! i /\
    (forall r c, getitem2 d1 r c = getitem2 d2 r c ->
                 getitem2 out1 r c = getitem2 out2 r c) /\
    data out1 = classify <$> data d1 /\
    data out2 = classify <$> data d2.
Proof.
  intros Hwf1 Hwf2 Hdim Hsh Hi.
  assert (Hdim2 : 0 < ndim d2) by (unfold ndim in *; rewrite <- Hsh; exact Hdim).
  exists (mk_ndarray (shape d1) (classify <$> data d1)),
         (mk_ndarray (shape d2) (classify <$> data d2)).
  split; [apply mask_inundation_spec; assumption|].
  split; [apply mask_inundation_spec; assumption|].
  split; [simpl; rewrite !list_lookup_fmap, Hi; reflexivity|].
  split; [|split; reflexivity].
  intros r c Hrc. rewrite !getitem2_fmap, Hrc. reflexivity.
Qed.

Lemma mask_inundation_pointwise_witness :
  data sample_block !! 1 <> data other_block !! 1 /\
  exists out1 out2,
    mask_inundation garbage sample_block = Ok out1 /\
    mask_inundation garbage' other_block = Ok out2 /\
    data out1 !! 3 = data out2 !! 3 /\
    (forall r c, getitem2 sample_block r c = getitem2 other_block r c ->
                 getitem2 out1 r c = getitem2 out2 r c) /\
    data out1 = classify <$> data sample_block /\
    data out2 = classify <$> data other_block.
Proof.
  split; [discriminate|].
  apply (mask_inundation_pointwise garbage garbage' sample_block other_block 3);
    [reflexivity | reflexivity | vm_compute; lia | reflexivity | reflexivity].
Defined.

(** C9: every element [mask_inundation] returns is 0 or 1, so the nodata
    marker 255 never comes from the callback, and both 0 and 1 do
    occur. *)
Theorem mask_inundation_range {A} `{Dtype A} (mem : nat -> Z) (d : ndarray A) :
  wf d -> 0 < ndim d ->
  (exists out, mask_inundation mem d = Ok out /\
     Forall (fun v => v = 0%Z \/ v = 1%Z) (data out) /\
     255%Z ∉ data out) /\
  (exists (d' : ndarray spec_float) out',
     mask_inundation mem d' = Ok out' /\ 0%Z ∈ data out' /\ 1%Z ∈ data out').
Proof.
  intros Hwf Hdim. split.
  - eexists. split; [apply mask_inundation_spec; assumption|]. simpl.
    assert (Hall : Forall (fun v => v = 0%Z \/ v = 1%Z) (classify <$> data d)).
    { apply Forall_fmap, Forall_forall. intros x _. apply classify_cases. }
    split; [exact Hall|].
    intros Hin. rewrite Forall_forall in Hall.
    destruct (Hall _ Hin); discriminate.
  - exists sample_block. eexists.
    split; [rewrite mask_inundation_eq; reflexivity|].
    simpl. split; set_solver.
Qed.

Lemma mask_inundation_range_witness :
  (exists out, mask_inundation garbage special_block = Ok out /\
     Forall (fun v => v = 0%Z \/ v = 1%Z) (data out) /\
     255%Z ∉ data out) /\
  (exists (d' : ndarray spec_float) out',
     mask_inundation garbage d' = Ok out' /\ 0%Z ∈ data out' /\ 1%Z ∈ data out').
Proof.
  apply (mask_inundation_range garbage special_block);
    [reflexivity | vm_compute; lia].
Defined.

(** ** Lists of rows *)

Lemma lookup_splice {X} (off : nat) (new old : list X) (i : nat) :
  off + length new <= length old ->
  splice off new old !! i =
  if decide (off <= i < off + length new) then new !! (i - off) else old !! i.
Proof.
  intros Hlen. unfold splice.
  destruct (decide (i < off)) as [Hlt|Hge].
  - rewrite lookup_app_l by (rewrite length_take; lia).
    rewrite lookup_take_lt by lia.
    destruct (decide (off <= i < off + length new)); [lia|reflexivity].
  - rewrite lookup_app_r by (rewrite length_take; lia).
    rewrite length_take, Nat.min_l by lia.
    destruct (decide (off <= i < off + length new)).
    + rewrite lookup_app_l by lia. reflexivity.
    + rewrite lookup_app_r by lia. rewrite lookup_drop. f_equal. lia.
Qed.

Lemma length_splice {X} (off : nat) (new old : list X) :
  off + length new <= length old -> length (splice off new old) = length old.
Proof.
  intros Hlen. unfold splice.
  rewrite !length_app, length_take, length_drop. lia.
Qed.

Lemma chunks_concat {X} (w : nat) (rows : list (list X)) :
  Forall (fun row => length row = w) rows ->
  chunks (length rows) w (concat rows) = rows.
Proof.
  induction 1 as [|row rows Hrow _ IH]; simpl; [reflexivity|].
  rewrite take_app_length', drop_app_length' by auto.
  f_equal. exact IH.
Qed.

Lemma chunks_fmap {X Y} (f : X -> Y) (n w : nat) (l : list X) :
  (fun row : list X => f <$> row) <$> chunks n w l = chunks n w (f <$> l).
Proof.
  revert l. induction n as [|n IH]; intros l; simpl; [reflexivity|].
  rewrite fmap_take, IH, fmap_drop. reflexivity.
Qed.

Lemma fmap_concat {X Y} (f : X -> Y) (rows : list (list X)) :
  f <$> concat rows = concat ((fun row : list X => f <$> row) <$> rows).
Proof.
  induction rows as [|row rows IH]; simpl; [reflexivity|].
  rewrite fmap_app, IH. reflexivity.
Qed.

Lemma zip_with_fmap_same {X Y W} (g : X -> Y -> W) (f : X -> Y) (l : list X) :
  zip_with g l (f <$> l) = (fun x => g x (f x)) <$> l.
Proof. induction l as [|x l IH]; simpl; [reflexivity|]. f_equal. exact IH. Qed.

Lemma length_concat_rows {X} (w : nat) (rows : list (list X)) :
  Forall (fun row => length row = w) rows ->
  length (concat rows) = length rows * w.
Proof.
  induction 1 as [|row rows Hrow _ IH]; simpl; [reflexivity|].
  rewrite length_app, IH, Hrow. reflexivity.
Qed.

Lemma length_spliced_rows {X} (xo yo : nat) (new old : list (list X)) :
  yo + length new <= length old ->
  length (zip_with (fun o n => splice xo n o)
            (take (length new) (drop yo old)) new) = length new.
Proof.
  intros Hlen. rewrite length_zip_with, length_take, length_drop. lia.
Qed.

(** Replacing a window of a grid changes the pixels of the window and
    no others. *)
Lemma pixel_splice_rows {X} (xo yo w xs : nat) (new old : list (list X))
    (r c : nat) :
  yo + length new <= length old ->
  Forall (fun row => length row = xs) old ->
  Forall (fun row => length row = w) new ->
  xo + w <= xs ->
  pixel (splice yo (zip_with (fun o n => splice xo n o)
                      (take (length new) (drop yo old)) new) old) r c
  = if decide ((yo <= r < yo + length new) /\ (xo <= c < xo + w))
    then pixel new (r - yo) (c - xo)
    else pixel old r c.
Proof.
  intros Hlen Hold Hnew Hw. unfold pixel.
  rewrite lookup_splice by (rewrite length_spliced_rows; lia).
  rewrite length_spliced_rows by lia.
  destruct (decide (yo <= r < yo + length new)) as [Hr|Hr].
  - rewrite lookup_zip_with, lookup_take_lt, lookup_drop by lia.
    replace (yo + (r - yo)) with r by lia.
    destruct (lookup_lt_is_Some_2 old r ltac:(lia)) as [orow Horow].
    destruct (lookup_lt_is_Some_2 new (r - yo) ltac:(lia)) as [nrow Hnrow].
    rewrite Horow, Hnrow. simpl.
    pose proof (Forall_lookup_1 _ _ _ _ Hold Horow) as Holen.
    pose proof (Forall_lookup_1 _ _ _ _ Hnew Hnrow) as Hnlen.
    simpl in Holen, Hnlen.
    rewrite lookup_splice by lia. rewrite Hnlen.
    destruct (decide (xo <= c < xo + w)) as [Hc|Hc].
    + rewrite decide_True by auto. reflexivity.
    + rewrite decide_False by tauto. reflexivity.
  - rewrite decide_False by tauto. reflexivity.
Qed.

Lemma extent_splice_rows {X} (xo yo w xs : nat) (new old : list (list X)) :
  yo + length new <= length old ->
  Forall (fun row => length row = xs) old ->
  Forall (fun row => length row = w) new ->
  xo + w <= xs ->
  let px := splice yo (zip_with (fun o n => splice xo n o)
                         (take (length new) (drop yo old)) new) old in
  length px = length old /\ Forall (fun row => length row = xs) px.
Proof.
  intros Hlen Hold Hnew Hw px. split.
  - unfold px. apply length_splice. rewrite length_spliced_rows; lia.
  - apply Forall_lookup. intros i row. unfold px.
    rewrite lookup_splice by (rewrite length_spliced_rows; lia).
    rewrite length_spliced_rows by lia.
    destruct (decide (yo <= i < yo + length new)) as [Hi|Hi].
    + rewrite lookup_zip_with, lookup_take_lt, lookup_drop by lia.
      replace (yo + (i - yo)) with i by lia.
      destruct (old !! i) as [orow|] eqn:Horow; [|discriminate].
      destruct (new !! (i - yo)) as [nrow|] eqn:Hnrow; [|discriminate].
      simpl. intros [= <-].
      pose proof (Forall_lookup_1 _ _ _ _ Hold Horow) as Holen.
      pose proof (Forall_lookup_1 _ _ _ _ Hnew Hnrow) as Hnlen.
      simpl in Holen, Hnlen.
      rewrite length_splice by lia. exact Holen.
    + intros Hrow. exact (Forall_lookup_1 _ _ _ _ Hold Hrow).
Qed.

Lemma grid_eq {X} (n w : nat) (g1 g2 : list (list X)) :
  length g1 = n -> length g2 = n ->
  Forall (fun row => length row = w) g1 ->
  Forall (fun row => length row = w) g2 ->
  (forall r c, r < n -> c < w -> pixel g1 r c = pixel g2 r c) ->
  g1 = g2.
Proof.
  intros Hl1 Hl2 Hw1 Hw2 Hpx. apply list_eq. intros r.
  destruct (decide (r < n)) as [Hr|Hr].
  - destruct (lookup_lt_is_Some_2 g1 r ltac:(lia)) as [row1 Hrow1].
    destruct (lookup_lt_is_Some_2 g2 r ltac:(lia)) as [row2 Hrow2].
    rewrite Hrow1, Hrow2. f_equal.
    pose proof (Forall_lookup_1 _ _ _ _ Hw1 Hrow1) as Hlen1.
    pose proof (Forall_lookup_1 _ _ _ _ Hw2 Hrow2) as Hlen2.
    simpl in Hlen1, Hlen2.
    apply list_eq. intros c.
    destruct (decide (c < w)) as [Hc|Hc].
    + specialize (Hpx r c Hr Hc). unfold pixel in Hpx.
      rewrite Hrow1, Hrow2 in Hpx. exact Hpx.
    + rewrite !lookup_ge_None_2 by lia. reflexivity.
  - rewrite !lookup_ge_None_2 by lia. reflexivity.
Qed.

Lemma pixel_fmap {X Y} (f : X -> Y) (g : list (list X)) (r c : nat) :
  pixel ((fun row : list X => f <$> row) <$> g) r c = f <$> pixel g r c.
Proof.
  unfold pixel. rewrite list_lookup_fmap.
  destruct (g !! r) as [row|]; simpl; [|reflexivity].
  apply list_lookup_fmap.
Qed.

(** ** The tiling *)

Lemma ceil_div_lt (a b i : nat) : 0 < b -> i < ceil_div a b <-> i * b < a.
Proof.
  intros Hb. unfold ceil_div. split.
  - intros Hi. destruct (decide (i * b < a)) as [|Hge]; [assumption|].
    exfalso.
    assert (Hlt : (a + b - 1) / b < i + 1)
      by (apply Nat.Div0.div_lt_upper_bound; lia).
    lia.
  - intros Hi.
    assert (Hle : i + 1 <= (a + b - 1) / b)
      by (apply Nat.div_le_lower_bound; lia).
    lia.
Qed.

Lemma elem_of_iterblocks {A} (r : raster A) (o : block_offset) :
  o ∈ iterblocks r <->
  exists yi xi,
    yi < ceil_div (ysize r) (blockysize r) /\
    xi < ceil_div (xsize r) (blockxsize r) /\
    o = mk_offset (xi * blockxsize r) (yi * blockysize r)
          (Nat.min (blockxsize r) (xsize r - xi * blockxsize r))
          (Nat.min (blockysize r) (ysize r - yi * blockysize r)).
Proof.
  unfold iterblocks. rewrite list_elem_of_bind. split.
  - intros (yi & Hin & Hyi). apply list_elem_of_bind in Hin as (xi & Hin & Hxi).
    apply list_elem_of_singleton in Hin.
    apply elem_of_seq in Hyi. apply elem_of_seq in Hxi.
    exists yi, xi. repeat split; [lia | lia | exact Hin].
  - intros (yi & xi & Hyi & Hxi & ->).
    exists yi. split; [|apply elem_of_seq; lia].
    apply list_elem_of_bind. exists xi. split; [|apply elem_of_seq; lia].
    apply list_elem_of_singleton. reflexivity.
Qed.

Lemma iterblocks_in_bounds {A} (r : raster A) :
  wf_raster r -> Forall (in_bounds r) (iterblocks r).
Proof.
  intros (_ & _ & Hbx & Hby). apply Forall_forall. intros o Ho.
  apply elem_of_iterblocks in Ho as (yi & xi & Hyi & Hxi & ->).
  apply ceil_div_lt in Hyi; [|assumption].
  apply ceil_div_lt in Hxi; [|assumption].
  unfold in_bounds. simpl. lia.
Qed.

(** Every pixel lies in a block. *)
Lemma iterblocks_cover {A} (src : raster A) (r c : nat) :
  wf_raster src -> r < ysize src -> c < xsize src ->
  exists o, o ∈ iterblocks src /\ in_window o r c.
Proof.
  intros (_ & _ & Hbx & Hby) Hr Hc.
  pose proof (Nat.div_mod_eq r (blockysize src)) as Hry.
  pose proof (Nat.mod_upper_bound r (blockysize src) ltac:(lia)) as Hrm.
  pose proof (Nat.div_mod_eq c (blockxsize src)) as Hcx.
  pose proof (Nat.mod_upper_bound c (blockxsize src) ltac:(lia)) as Hcm.
  eexists. split.
  - apply elem_of_iterblocks.
    exists (r / blockysize src), (c / blockxsize src).
    split; [apply ceil_div_lt; [assumption|lia]|].
    split; [apply ceil_div_lt; [assumption|lia]|].
    reflexivity.
  - unfold in_window. simpl. lia.
Qed.

(** ** The block loop of the raster library *)

Section Calculator.
Context {A : Type} `{Dtype A}.
Variables (lib : library) (heap : nat -> nat -> Z).
Variables (local_op : callback) (rule : A -> Z).
Variables (src : raster A) (nodata_target : Z).

(** The callback applies [rule] at each position of a block. *)
Hypothesis local_op_elementwise :
  forall (mem : nat -> Z) (blk : ndarray A),
    wf blk -> 0 < ndim blk ->
    local_op A _ mem blk = Ok (mk_ndarray (shape blk) (rule <$> data blk)).

Hypothesis src_wf : wf_raster src.

Local Abbreviation byte_of := (target_pixel lib src nodata_target rule).

Lemma block_rows_length (o : block_offset) :
  in_bounds src o -> length (block_rows src o) = win_ysize o.
Proof.
  intros [Hy _]. destruct src_wf as (Hlen & _).
  unfold block_rows. rewrite length_fmap, length_take, length_drop. lia.
Qed.

Lemma block_rows_width (o : block_offset) :
  in_bounds src o ->
  Forall (fun row => length row = win_xsize o) (block_rows src o).
Proof.
  intros [_ Hx]. destruct src_wf as (_ & Hrows & _).
  unfold block_rows. apply Forall_fmap, Forall_take, Forall_drop.
  eapply Forall_impl; [exact Hrows|]. intros row Hrow. simpl in *.
  rewrite length_take, length_drop. lia.
Qed.

Lemma read_block_wf (o : block_offset) :
  in_bounds src o -> wf (read_block src o).
Proof.
  intros Hb. unfold wf, read_block. simpl.
  rewrite (length_concat_rows (win_xsize o)) by (apply block_rows_width; exact Hb).
  rewrite block_rows_length by exact Hb. lia.
Qed.

Lemma block_rows_lookup (o : block_offset) (r : nat) :
  yoff o <= r < yoff o + win_ysize o ->
  block_rows src o !! (r - yoff o)
  = (fun row => take (win_xsize o) (drop (xoff o) row)) <$> pixels src !! r.
Proof.
  intros Hr. unfold block_rows.
  rewrite list_lookup_fmap, lookup_take_lt, lookup_drop by lia.
  do 2 f_equal. lia.
Qed.

(** What one iteration hands to [write_block]. *)
Lemma substituted_block (o : block_offset) (mem : nat -> Z) :
  in_bounds src o ->
  exists res,
    local_op A _ mem (read_block src o) = Ok res /\
    shape (substitute lib src nodata_target (read_block src o) res)
    = [win_ysize o; win_xsize o] /\
    (fun row : list Z => to_uint8 <$> row)
    <$> chunks (win_ysize o) (win_xsize o)
          (data (substitute lib src nodata_target (read_block src o) res))
    = (fun row : list A => byte_of <$> row) <$> block_rows src o.
Proof.
  intros Hb. eexists. split.
  { apply local_op_elementwise; [apply read_block_wf; exact Hb|].
    unfold ndim. simpl. lia. }
  assert (Hdata :
    to_uint8 <$> data (substitute lib src nodata_target (read_block src o)
                (mk_ndarray (shape (read_block src o))
                   (rule <$> data (read_block src o))))
    = byte_of <$> concat (block_rows src o)).
  { unfold substitute, byte_of, target_pixel. simpl.
    destruct (substitutes_nodata lib); simpl.
    - rewrite zip_with_fmap_same, <- list_fmap_compose. reflexivity.
    - rewrite <- list_fmap_compose. reflexivity. }
  split.
  { unfold substitute. destruct (substitutes_nodata lib); reflexivity. }
  rewrite chunks_fmap, Hdata, fmap_concat.
  rewrite <- (block_rows_length o Hb) at 1.
  rewrite <- (length_fmap (fun row : list A => byte_of <$> row)).
  apply chunks_concat.
  apply Forall_fmap. eapply Forall_impl; [apply block_rows_width; exact Hb|].
  intros row Hrow. simpl. rewrite length_fmap. exact Hrow.
Qed.

(** One iteration: the window of the block receives the bytes of its
    source pixels, every other pixel of the target is unchanged. *)
Lemma write_block_pixels (t : raster Z) (o : block_offset) (mem : nat -> Z) :
  same_extent src t -> in_bounds src o ->
  exists res px,
    local_op A _ mem (read_block src o) = Ok res /\
    write_block t o (substitute lib src nodata_target (read_block src o) res)
    = Ok (set_pixels t px) /\
    same_extent src (set_pixels t px) /\
    forall r c,
      pixel px r c =
      if decide (in_window o r c)
      then byte_of <$> pixel (pixels src) r c
      else pixel (pixels t) r c.
Proof.
  intros (Hxs & Hys & Hlen & Hrows) Hb.
  destruct (substituted_block o mem Hb) as (res & Hres & Hshape & Hchunks).
  pose proof (block_rows_length o Hb) as Hnl.
  pose proof (block_rows_width o Hb) as Hnw.
  destruct Hb as [Hby Hbx].
  set (new := (fun row : list A => byte_of <$> row) <$> block_rows src o) in *.
  assert (Hnewlen : length new = win_ysize o)
    by (unfold new; rewrite length_fmap; exact Hnl).
  assert (Hneww : Forall (fun row => length row = win_xsize o) new).
  { unfold new. apply Forall_fmap. eapply Forall_impl; [exact Hnw|].
    intros row Hrow. simpl in *. rewrite length_fmap. exact Hrow. }
  exists res,
    (splice (yoff o)
       (zip_with (fun old new => splice (xoff o) new old)
          (take (length new) (drop (yoff o) (pixels t))) new)
       (pixels t)).
  split; [exact Hres|]. split.
  { unfold write_block. rewrite Hshape.
    rewrite decide_True by (rewrite Hxs, Hys; auto).
    rewrite <- (zip_with_fmap_r (fun old new => splice (xoff o) new old)
                  (fun row : list Z => to_uint8 <$> row)).
    rewrite Hchunks. fold new. rewrite Hnewlen. reflexivity. }
  destruct (extent_splice_rows (xoff o) (yoff o) (win_xsize o) (xsize src)
              new (pixels t)) as [Hl Hr]; try assumption; try lia.
  split.
  { unfold same_extent. simpl. rewrite Hl. auto. }
  intros r c.
  rewrite (pixel_splice_rows (xoff o) (yoff o) (win_xsize o) (xsize src))
    by (try assumption; lia).
  unfold in_window. rewrite Hnewlen.
  destruct (decide ((yoff o <= r < yoff o + win_ysize o)
                    /\ (xoff o <= c < xoff o + win_xsize o))) as [[Hr' Hc]|Hn];
    [|reflexivity].
  unfold pixel, new.
  rewrite list_lookup_fmap, block_rows_lookup by exact Hr'.
  destruct (pixels src !! r) as [srow|]; [|reflexivity]. simpl.
  rewrite list_lookup_fmap, lookup_take_lt, lookup_drop by lia.
  do 2 f_equal. lia.
Qed.

(** The loop over a list of blocks: pixels inside some block hold the
    byte of their source pixel, the others are as before. *)
Lemma calculate_blocks_pixels (offsets : list block_offset) :
  forall (k : nat) (t : raster Z),
    same_extent src t -> Forall (in_bounds src) offsets ->
    exists px,
      calculate_blocks lib heap local_op src nodata_target offsets k t
      = (Ok tt, set_pixels t px) /\
      same_extent src (set_pixels t px) /\
      forall r c,
        (Exists (fun o => in_window o r c) offsets ->
         pixel px r c = byte_of <$> pixel (pixels src) r c) /\
        (~ Exists (fun o => in_window o r c) offsets ->
         pixel px r c = pixel (pixels t) r c).
Proof.
  induction offsets as [|o offsets IH]; intros k t Ht Hb.
  - exists (pixels t). split; [destruct t; reflexivity|].
    split; [destruct t; exact Ht|].
    intros r c. split; [intros Hex; inversion Hex | reflexivity].
  - apply Forall_cons in Hb as [Hbo Hb].
    destruct (write_block_pixels t o (heap k) Ht Hbo)
      as (res & px1 & Hres & Hwrite & Ht1 & Hpx1).
    destruct (IH (S k) (set_pixels t px1) Ht1 Hb) as (px2 & Hcalc & Ht2 & Hpx2).
    exists px2. simpl. rewrite Hres, Hwrite, Hcalc.
    split; [reflexivity|]. split; [exact Ht2|].
    intros r c. destruct (Hpx2 r c) as [Hin Hout].
    specialize (Hpx1 r c). simpl in Hout.
    destruct (decide (Exists (fun o => in_window o r c) offsets)) as [Hex|Hnex].
    + split; [intros _; auto|].
      intros Hn. exfalso. apply Hn. apply Exists_cons. right. exact Hex.
    + rewrite (Hout Hnex), Hpx1.
      destruct (decide (in_window o r c)) as [Hw|Hw].
      * split; [reflexivity|].
        intros Hn. exfalso. apply Hn. apply Exists_cons. left. exact Hw.
      * split; [|reflexivity].
        intros Hex. apply Exists_cons in Hex as [?|?]; contradiction.
Qed.

(** The whole pass: the target is the source with every pixel
    replaced by its byte, whatever the allocator and the new band
    held. *)
Lemma calculate_spec :
  calculate lib heap local_op src GDT_Byte nodata_target
  = (Ok tt,
     mk_raster (xsize src) (ysize src) (blockxsize src) (blockysize src)
       (geotransform src) (projection src) (Some (to_uint8 nodata_target))
       ((fun row : list A => byte_of <$> row) <$> pixels src)).
Proof.
  unfold calculate.
  set (t0 := create_target lib src GDT_Byte nodata_target).
  destruct src_wf as (Hlen & Hrows & Hbx & Hby).
  assert (Ht0 : same_extent src t0).
  { unfold same_extent, t0. simpl.
    rewrite length_fmap, length_seq. repeat split.
    apply Forall_fmap, Forall_forall. intros r _. simpl.
    rewrite length_fmap, length_seq. reflexivity. }
  destruct (calculate_blocks_pixels (iterblocks src) 0 t0 Ht0
              (iterblocks_in_bounds src src_wf))
    as (px & Hcalc & (_ & _ & Hpl & Hpw) & Hpx).
  rewrite Hcalc. f_equal. unfold set_pixels, t0. simpl. f_equal.
  simpl in Hpl, Hpw.
  apply (grid_eq (ysize src) (xsize src)); try assumption.
  - rewrite length_fmap. exact Hlen.
  - apply Forall_fmap. eapply Forall_impl; [exact Hrows|].
    intros row Hrow. simpl in *. rewrite length_fmap. exact Hrow.
  - intros r c Hr Hc. rewrite pixel_fmap.
    apply (Hpx r c). apply Exists_exists.
    destruct (iterblocks_cover src r c src_wf Hr Hc) as (o & Ho & Hw).
    exists o. split; assumption.
Qed.
End Calculator.

(** ** The script as a whole *)

Lemma mask_inundation_elementwise {A} `{Dtype A} (mem : nat -> Z) (blk : ndarray A) :
  wf blk -> 0 < ndim blk ->
  (@mask_inundation : callback) A _ mem blk
  = Ok (mk_ndarray (shape blk) (classify <$> data blk)).
Proof. apply mask_inundation_spec. Qed.

Lemma is_raster_open (w : filesystem) (path : string) :
  is_raster w path = false -> open_raster w path = Raise (IOError path).
Proof.
  unfold is_raster, open_raster.
  destruct (files w !! path) as [[d|]|]; [discriminate | reflexivity | reflexivity].
Qed.

(** [main] hands on whatever the library call gives. *)
Lemma main_is_library_call (lib : library) (heap : nat -> nat -> Z)
    (src tgt : string) (w : filesystem) :
  main lib heap src tgt w
  = raster_calculator lib heap (src, 1) (@mask_inundation) tgt GDT_Byte 255 w.
Proof.
  unfold main.
  destruct (raster_calculator lib heap (src, 1) (@mask_inundation) tgt GDT_Byte 255 w)
    as [[[]|e] w']; reflexivity.
Qed.

Lemma raster_calculator_unreadable (lib : library) (heap : nat -> nat -> Z)
    (src tgt : string) (w : filesystem) :
  is_raster w src = false ->
  raster_calculator lib heap (src, 1) (@mask_inundation) tgt GDT_Byte 255 w
  = (Raise (IOError src), w).
Proof.
  intros Hsrc. unfold raster_calculator.
  rewrite (is_raster_open w src Hsrc). reflexivity.
Qed.

Lemma raster_calculator_unwritable (lib : library) (heap : nat -> nat -> Z)
    (src tgt : string) (w : filesystem) :
  is_raster w src = true -> can_write w tgt = false ->
  raster_calculator lib heap (src, 1) (@mask_inundation) tgt GDT_Byte 255 w
  = (Raise (IOError tgt), w).
Proof.
  intros Hsrc Htgt. unfold raster_calculator, open_raster.
  unfold is_raster in Hsrc.
  destruct (files w !! src) as [[d|]|]; try discriminate.
  simpl. rewrite Htgt. reflexivity.
Qed.

(** A run on a readable source and a writable target. *)
Lemma main_ok (lib : library) (heap : nat -> nat -> Z) (src tgt : string)
    (w : filesystem) (d : dataset) :
  files w !! src = Some (RasterFile d) -> wf_dataset d ->
  can_write w tgt = true ->
  main lib heap src tgt w
  = (Ok tt, store w tgt (RasterFile (ByteDataset (threshold_dataset lib d)))).
Proof.
  intros Hsrc Hwf Htgt. rewrite main_is_library_call.
  unfold raster_calculator, open_raster. rewrite Hsrc. simpl. rewrite Htgt. simpl.
  destruct d as [r|r]; simpl in Hwf |- *.
  - rewrite (calculate_spec lib heap (@mask_inundation) classify r 255
               (fun mem blk => mask_inundation_elementwise mem blk) Hwf).
    reflexivity.
  - rewrite (calculate_spec lib heap (@mask_inundation) classify r 255
               (fun mem blk => mask_inundation_elementwise mem blk) Hwf).
    reflexivity.
Qed.

Lemma target_pixel_domain {A} `{Dtype A} (lib : library) (src : raster A) (x : A) :
  let v := target_pixel lib src 255 classify x in
  v = 0%Z \/ v = 1%Z \/ v = 255%Z.
Proof.
  unfold target_pixel.
  destruct (substitutes_nodata lib && is_nodata src x); [auto|].
  destruct (classify_cases x) as [-> | ->]; auto.
Qed.

Lemma threshold_dataset_domain (lib : library) (d : dataset) :
  Forall (Forall (fun v => v = 0%Z \/ v = 1%Z \/ v = 255%Z))
    (pixels (threshold_dataset lib d)).
Proof.
  destruct d as [r|r]; simpl;
    apply Forall_fmap, Forall_forall; intros row _; simpl;
    apply Forall_fmap, Forall_forall; intros x _;
    apply target_pixel_domain.
Qed.

(** ** The claims about the target raster and the process *)

(** C3: after a run on a readable source and a writable target, the
    target path holds a byte raster with nodata value 255 whose pixels
    all lie in {0, 1, 255}, whether or not the library substitutes
    nodata. *)
Theorem target_pixels_in_domain (lib : library) (heap : nat -> nat -> Z)
    (src tgt : string) (w : filesystem) (d : dataset) :
  files w !! src = Some (RasterFile d) -> wf_dataset d ->
  can_write w tgt = true ->
  exists t,
    (main lib heap src tgt w).1 = Ok tt /\
    files (main lib heap src tgt w).2 !! tgt = Some (RasterFile (ByteDataset t)) /\
    nodata t = Some 255%Z /\
    Forall (Forall (fun v => v = 0%Z \/ v = 1%Z \/ v = 255%Z)) (pixels t).
Proof.
  intros Hsrc Hwf Htgt. exists (threshold_dataset lib d).
  rewrite (main_ok lib heap src tgt w d Hsrc Hwf Htgt). simpl.
  split; [reflexivity|]. split; [apply lookup_insert_eq|].
  split; [destruct d; reflexivity|].
  apply threshold_dataset_domain.
Qed.

Lemma sample_raster_wf : wf_dataset (FloatDataset sample_raster).
Proof.
  simpl. unfold wf_raster. simpl.
  split; [reflexivity|]. split; [|lia].
  repeat constructor.
Defined.

Lemma target_pixels_in_domain_witness :
  exists t,
    (main masking_library sample_heap "depth.tif" "wet.tif" sample_fs).1 = Ok tt /\
    files (main masking_library sample_heap "depth.tif" "wet.tif" sample_fs).2
      !! "wet.tif" = Some (RasterFile (ByteDataset t)) /\
    nodata t = Some 255%Z /\
    Forall (Forall (fun v => v = 0%Z \/ v = 1%Z \/ v = 255%Z)) (pixels t).
Proof.
  apply (target_pixels_in_domain masking_library sample_heap
           "depth.tif" "wet.tif" sample_fs (FloatDataset sample_raster)).
  - reflexivity.
  - exact sample_raster_wf.
  - reflexivity.
Defined.

(** C6: the result does not depend on the run.  The callback returns
    equal blocks for equal inputs whatever memory the allocator hands
    out, and running the script a second time on the same source and
    target leaves the file system, and so the target raster, exactly as
    the first run left it. *)
Theorem transform_deterministic (lib : library) (heap1 heap2 : nat -> nat -> Z)
    (src tgt : string) (w : filesystem) (d : dataset) :
  files w !! src = Some (RasterFile d) -> wf_dataset d ->
  can_write w tgt = true ->
  let run1 := main lib heap1 src tgt w in
  let run2 := main lib heap2 src tgt run1.2 in
  files run1.2 !! src = Some (RasterFile d) ->
  (forall A (HA : Dtype A) (mem1 mem2 : nat -> Z) (blk1 blk2 : ndarray A),
     blk1 = blk2 -> mask_inundation mem1 blk1 = mask_inundation mem2 blk2) /\
  run1.1 = Ok tt /\ run2.1 = Ok tt /\
  run2.2 = run1.2 /\
  files run2.2 !! tgt = files run1.2 !! tgt /\
  is_Some (files run1.2 !! tgt).
Proof.
  intros Hsrc Hwf Htgt run1 run2 Hsame.
  split.
  { intros A HA mem1 mem2 blk1 blk2 ->. rewrite !mask_inundation_eq. reflexivity. }
  assert (H1 : run1 = (Ok tt, store w tgt
                         (RasterFile (ByteDataset (threshold_dataset lib d)))))
    by (apply main_ok; assumption).
  assert (H2 : run2 = (Ok tt, store run1.2 tgt
                         (RasterFile (ByteDataset (threshold_dataset lib d))))).
  { apply main_ok; [exact Hsame | exact Hwf |]. rewrite H1. exact Htgt. }
  assert (Hfix : run2.2 = run1.2).
  { rewrite H2, H1. unfold store. simpl. f_equal. apply insert_insert_eq. }
  split; [rewrite H1; reflexivity|].
  split; [rewrite H2; reflexivity|].
  split; [exact Hfix|].
  split; [rewrite Hfix; reflexivity|].
  rewrite H1. simpl. rewrite lookup_insert_eq. eauto.
Qed.

Lemma transform_deterministic_witness :
  let run1 := main raw_library sample_heap "depth.tif" "wet.tif" sample_fs in
  let run2 := main raw_library sample_heap' "depth.tif" "wet.tif" run1.2 in
  (forall A (HA : Dtype A) (mem1 mem2 : nat -> Z) (blk1 blk2 : ndarray A),
     blk1 = blk2 -> mask_inundation mem1 blk1 = mask_inundation mem2 blk2) /\
  run1.1 = Ok tt /\ run2.1 = Ok tt /\
  run2.2 = run1.2 /\
  files run2.2 !! "wet.tif" = files run1.2 !! "wet.tif" /\
  is_Some (files run1.2 !! "wet.tif").
Proof.
  apply (transform_deterministic raw_library sample_heap sample_heap'
           "depth.tif" "wet.tif" sample_fs (FloatDataset sample_raster)).
  - reflexivity.
  - exact sample_raster_wf.
  - reflexivity.
  - vm_compute. reflexivity.
Defined.

(** C8: when the source path holds no raster or the target path cannot
    be written, the library call raises, [main] raises the same
    exception without touching the file system, and the process ends
    with a status other than 0; when the library call succeeds, [main]
    returns [None] and the status is 0, which is what happens on a
    readable source and a writable target. *)
Theorem main_propagates_errors (lib : library) (heap : nat -> nat -> Z)
    (prog src tgt : string) (w : filesystem) :
  let library_call :=
    raster_calculator lib heap (src, 1) (@mask_inundation) tgt GDT_Byte 255 w in
  (is_raster w src = false \/ can_write w tgt = false ->
   exists e,
     library_call = (Raise e, w) /\
     main lib heap src tgt w = (Raise e, w) /\
     script lib heap [prog; src; tgt] w = (Raise e, w) /\
     exit_status (script lib heap [prog; src; tgt] w).1 <> 0%Z) /\
  (forall w', library_call = (Ok tt, w') ->
     main lib heap src tgt w = (Ok tt, w') /\
     script lib heap [prog; src; tgt] w = (Ok tt, w') /\
     exit_status (script lib heap [prog; src; tgt] w).1 = 0%Z) /\
  (forall d, files w !! src = Some (RasterFile d) -> wf_dataset d ->
     can_write w tgt = true ->
     exists w', library_call = (Ok tt, w')).
Proof.
  intros library_call.
  assert (Hmain : main lib heap src tgt w = library_call)
    by apply main_is_library_call.
  assert (Hscript : script lib heap [prog; src; tgt] w = library_call)
    by (unfold script; simpl; exact Hmain).
  split; [|split].
  - intros Hfail.
    assert (Hraise : exists e, library_call = (Raise e, w)).
    { destruct (is_raster w src) eqn:Hsrc.
      - destruct Hfail as [Hfail|Hfail]; [discriminate|].
        eexists. apply raster_calculator_unwritable; assumption.
      - eexists. apply raster_calculator_unreadable; assumption. }
    destruct Hraise as [e He]. exists e.
    rewrite Hscript, Hmain, He. simpl. repeat split. discriminate.
  - intros w' Hok. rewrite Hscript, Hmain, Hok. simpl. repeat split.
  - intros d Hsrc Hwf Htgt. eexists.
    rewrite <- Hmain. apply main_ok; eassumption.
Qed.

Lemma main_propagates_errors_witness :
  (exists e,
     main raw_library sample_heap "missing.tif" "wet.tif" sample_fs
     = (Raise e, sample_fs) /\
     exit_status
       (script raw_library sample_heap
          ["preprocess_inundation_rasters.py"; "missing.tif"; "wet.tif"]
          sample_fs).1 <> 0%Z) /\
  (exists e,
     main raw_library sample_heap "notes.txt" "wet.tif" sample_fs
     = (Raise e, sample_fs)) /\
  (exists e,
     main raw_library sample_heap "depth.tif" "/readonly/out.tif" sample_fs
     = (Raise e, sample_fs)) /\
  (exists w',
     main raw_library sample_heap "depth.tif" "wet.tif" sample_fs = (Ok tt, w') /\
     exit_status
       (script raw_library sample_heap
          ["preprocess_inundation_rasters.py"; "depth.tif"; "wet.tif"]
          sample_fs).1 = 0%Z).
Proof.
  split; [|split; [|split]].
  - destruct (proj1 (main_propagates_errors raw_library sample_heap
                       "preprocess_inundation_rasters.py" "missing.tif" "wet.tif"
                       sample_fs)) as (e & _ & Hm & _ & Hs).
    + left. reflexivity.
    + exists e. split; assumption.
  - destruct (proj1 (main_propagates_errors raw_library sample_heap
                       "preprocess_inundation_rasters.py" "notes.txt" "wet.tif"
                       sample_fs)) as (e & _ & Hm & _).
    + left. reflexivity.
    + exists e. exact Hm.
  - destruct (proj1 (main_propagates_errors raw_library sample_heap
                       "preprocess_inundation_rasters.py" "depth.tif"
                       "/readonly/out.tif" sample_fs)) as (e & _ & Hm & _).
    + right. reflexivity.
    + exists e. exact Hm.
  - destruct (main_propagates_errors raw_library sample_heap
                "preprocess_inundation_rasters.py" "depth.tif" "wet.tif"
                sample_fs) as (_ & Hok & Hex).
    destruct (Hex (FloatDataset sample_raster) eq_refl sample_raster_wf eq_refl)
      as [w' Hw'].
    destruct (Hok w' Hw') as (Hm & _ & Hs).
    exists w'. split; assumption.
Defined.

(** ** Further properties of the callback *)



Lemma classify_classify {A} `{Dtype A} (x : A) :
  classify (classify x) = classify x.
Proof. destruct (classify_cases x) as [-> | ->]; reflexivity. Qed.

(** X2: classifying the output of the callback once more changes
    nothing: the callback maps its own result, a block of bytes, to
    itself. *)
Theorem mask_inundation_fixed_point {A} `{Dtype A} (mem1 mem2 : nat -> Z)
    (d : ndarray A) :
  wf d -> 0 < ndim d ->
  exists out, mask_inundation mem1 d = Ok out /\ mask_inundation mem2 out = Ok out.
Proof.
  intros Hwf Hdim. eexists. split; [apply mask_inundation_spec; assumption|].
  rewrite mask_inundation_spec.
  - simpl. f_equal. f_equal. rewrite <- list_fmap_compose.
    apply list_fmap_ext. intros i x _. apply classify_classify.
  - unfold wf. simpl. rewrite length_fmap. exact Hwf.
  - exact Hdim.
Qed.

Lemma mask_inundation_fixed_point_witness :
  exists out, mask_inundation garbage special_block = Ok out /\
              mask_inundation garbage' out = Ok out.
Proof.
  apply (mask_inundation_fixed_point garbage garbage' special_block);
    [reflexivity | vm_compute; lia].
Defined.

Lemma classify_monotone (x y : spec_float) :
  SFleb x y = true -> (classify x <= classify y)%Z.
Proof.
  unfold classify. rewrite float64_zero. simpl.
  destruct x as [sx|sx| |sx mx ex], y as [sy|sy| |sy my ey];
    try destruct sx; try destruct sy; simpl; intros Hle;
    try discriminate; try lia.
Qed.

(** X3: the callback is monotone: where one block is at most another
    of the same shape, its output is at most the other's, so a deeper
    pixel is never classified as dry while a shallower one is wet. *)
Theorem mask_inundation_monotone (mem1 mem2 : nat -> Z)
    (d1 d2 : ndarray spec_float) (i : nat) (x y : spec_float) :
  wf d1 -> wf d2 -> 0 < ndim d1 -> shape d1 = shape d2 ->
  data d1 !! i = Some x -> data d2 !! i = Some y -> SFleb x y = true ->
  exists out1 out2 u v,
    mask_inundation mem1 d1 = Ok out1 /\ mask_inundation mem2 d2 = Ok out2 /\
    data out1 !! i = Some u /\ data out2 !! i = Some v /\ (u <= v)%Z.
Proof.
  intros Hwf1 Hwf2 Hdim Hsh Hx Hy Hle.
  assert (Hdim2 : 0 < ndim d2) by (unfold ndim in *; rewrite <- Hsh; exact Hdim).
  exists (mk_ndarray (shape d1) (classify <$> data d1)),
         (mk_ndarray (shape d2) (classify <$> data d2)),
         (classify x), (classify y).
  split; [apply mask_inundation_spec; assumption|].
  split; [apply mask_inundation_spec; assumption|].
  simpl. rewrite !list_lookup_fmap, Hx, Hy. simpl.
  repeat split. apply classify_monotone. exact Hle.
Qed.

Lemma mask_inundation_monotone_witness :
  exists out1 out2 u v,
    mask_inundation garbage sample_block = Ok out1 /\
    mask_inundation garbage' other_block = Ok out2 /\
    data out1 !! 1 = Some u /\ data out2 !! 1 = Some v /\ (u <= v)%Z.
Proof.
  apply (mask_inundation_monotone garbage garbage' sample_block other_block 1
           f64_m1_0 f64_0_3); try reflexivity.
  vm_compute; lia.
Defined.

Lemma classify_float_eq (x : spec_float) :
  classify x = if SFltb (S754_zero false) x then 1%Z else 0%Z.
Proof. reflexivity. Qed.

Lemma count_classified (l : list spec_float) :
  length (filter (fun v => v <> 0%Z) (classify <$> l))
  = length (filter (fun x => SFltb (S754_zero false) x = true) l).
Proof.
  induction l as [|x l IH]; [reflexivity|].
  rewrite fmap_cons, !filter_cons.
  pose proof (classify_float_eq x) as Hx.
  destruct (SFltb (S754_zero false) x) eqn:E.
  - rewrite decide_True by (rewrite Hx; discriminate).
    rewrite decide_True by reflexivity.
    simpl. f_equal. exact IH.
  - rewrite decide_False by (rewrite Hx; intros Hne; apply Hne; reflexivity).
    rewrite decide_False by discriminate. exact IH.
Qed.

(** X4: the number of non-zero elements of the output is the number of
    input elements that are greater than zero, and with the number of
    zero elements it adds up to the size of the block. *)
Theorem mask_inundation_counts (mem : nat -> Z) (d : ndarray spec_float) :
  wf d -> 0 < ndim d ->
  exists out, mask_inundation mem d = Ok out /\
    count_nonzero out = count_positive d /\
    count_nonzero out + length (filter (fun v => v = 0%Z) (data out))
    = prod (shape d) /\
    (forall x, SFltb (S754_zero false) x = true <-> float_positive x).
Proof.
  intros Hwf Hdim. eexists. split; [apply mask_inundation_spec; assumption|].
  unfold count_nonzero, count_positive. simpl.
  split; [apply count_classified|]. split.
  - rewrite <- Hwf, <- (length_fmap classify (data d)).
    generalize (classify <$> data d). intros l.
    induction l as [|v l IH]; [reflexivity|].
    rewrite !filter_cons.
    destruct (decide (v <> 0%Z)) as [Hv|Hv];
      destruct (decide (v = 0%Z)) as [Hv'|Hv']; simpl in *; try lia.
  - intros x. rewrite <- gt_zero_positive, float64_zero. reflexivity.
Qed.

Lemma mask_inundation_counts_witness :
  exists out, mask_inundation garbage special_block = Ok out /\
    count_nonzero out = 2 /\
    count_nonzero out + length (filter (fun v => v = 0%Z) (data out)) = 5 /\
    (forall x, SFltb (S754_zero false) x = true <-> float_positive x).
Proof.
  apply (mask_inundation_counts garbage special_block);
    [reflexivity | vm_compute; lia].
Defined.

(** X5: the callback commutes with stacking blocks: classifying two
    blocks that agree on their trailing axes and stacking the results
    gives what classifying the stacked block gives, so the result does
    not depend on where a raster is cut into blocks. *)
Theorem mask_inundation_concatenate {A} `{Dtype A} (mem1 mem2 mem3 : nat -> Z)
    (a b : ndarray A) (n1 n2 : nat) (rest : list nat) :
  wf a -> wf b -> shape a = n1 :: rest -> shape b = n2 :: rest ->
  exists ab out_a out_b out,
    concatenate a b = Ok ab /\
    wf ab /\
    mask_inundation mem1 a = Ok out_a /\
    mask_inundation mem2 b = Ok out_b /\
    mask_inundation mem3 ab = Ok out /\
    concatenate out_a out_b = Ok out.
Proof.
  intros Hwa Hwb Hsa Hsb.
  assert (Hda : 0 < ndim a) by (unfold ndim; rewrite Hsa; simpl; lia).
  assert (Hdb : 0 < ndim b) by (unfold ndim; rewrite Hsb; simpl; lia).
  assert (Hab : concatenate a b = Ok (mk_ndarray (n1 + n2 :: rest) (data a ++ data b))).
  { unfold concatenate. rewrite Hsa, Hsb. rewrite decide_True by reflexivity.
    reflexivity. }
  assert (Hwab : wf (mk_ndarray (n1 + n2 :: rest) (data a ++ data b))).
  { unfold wf in *. simpl. rewrite length_app, Hwa, Hwb, Hsa, Hsb. simpl. lia. }
  eexists. exists (mk_ndarray (shape a) (classify <$> data a)),
                  (mk_ndarray (shape b) (classify <$> data b)).
  eexists.
  split; [exact Hab|]. split; [exact Hwab|].
  split; [apply mask_inundation_spec; assumption|].
  split; [apply mask_inundation_spec; assumption|].
  split.
  - apply mask_inundation_spec; [exact Hwab|]. unfold ndim. simpl. lia.
  - unfold concatenate. simpl. rewrite Hsa, Hsb.
    rewrite decide_True by reflexivity. rewrite fmap_app. reflexivity.
Qed.

Lemma mask_inundation_concatenate_witness :
  exists ab out_a out_b out,
    concatenate sample_block other_block = Ok ab /\
    wf ab /\
    mask_inundation garbage sample_block = Ok out_a /\
    mask_inundation garbage' other_block = Ok out_b /\
    mask_inundation garbage ab = Ok out /\
    concatenate out_a out_b = Ok out.
Proof.
  apply (mask_inundation_concatenate garbage garbage' garbage
           sample_block other_block 2 2 [2]); reflexivity.
Defined.

(** ** Further properties of the script *)

(** X6: called with any number of command-line arguments other than
    two, the script raises [TypeError] before anything is read or
    written, and the process ends with status 1. *)
Theorem script_wrong_argument_count (lib : library) (heap : nat -> nat -> Z)
    (argv : list string) (w : filesystem) :
  length argv <> 3 ->
  script lib heap argv w = (Raise TypeError, w) /\
  exit_status (script lib heap argv w).1 = 1%Z.
Proof.
  intros Hlen. unfold script.
  destruct argv as [|prog [|a [|b [|c rest]]]]; simpl in *;
    try (split; reflexivity).
  lia.
Qed.

Lemma script_wrong_argument_count_witness :
  script raw_library sample_heap
    ["preprocess_inundation_rasters.py"; "depth.tif"; "wet.tif"; "extra"] sample_fs
  = (Raise TypeError, sample_fs) /\
  exit_status
    (script raw_library sample_heap
       ["preprocess_inundation_rasters.py"; "depth.tif"; "wet.tif"; "extra"]
       sample_fs).1 = 1%Z.
Proof.
  apply (script_wrong_argument_count raw_library sample_heap
           ["preprocess_inundation_rasters.py"; "depth.tif"; "wet.tif"; "extra"]
           sample_fs).
  vm_compute; lia.
Defined.
